(** * Reverse-dependency listing: the graph builder and the upstream resolver

    A shallow embedding of [list.py] (loading the fact table, building the
    reverse and the forward adjacency maps, the immediate-upstream
    reduction, the command-line driver) and of [dependencies.py] (the fact
    store it writes and prints, and its driver, given what the two calls
    that read [settings.gradle] and run Gradle return).

    Python values are modelled as follows:
    - a row of the table, the tuple [(servicename, dependency, version)],
      is a triple of strings;
    - a [dict] that is only ever read by key is a [gmap];
    - a [set] of names is a [gset string];
    - a [list] that grows by [append] is a [list] extended at its end;
    - a call that may raise returns an [outcome];
    - the database file is a [database] value passed in and out: what
      [sqlite3.connect] finds on disk, and the table once it exists;
    - [print] adds a line to the list of lines written. *)

From stdpp Require Import gmap strings list fin_maps.

Open Scope string_scope.
Open Scope list_scope.

(** ** Rows and adjacency maps *)

(** One row as [fetchall] yields it: (servicename, dependency, version). *)
Definition fact : Type := string * string * string.

(** An entry of a dependent list: (dependent, version). *)
Definition dependent : Type := string * string.

Abbreviation rev_graph_t := (gmap string (list dependent)).
Abbreviation direct_map_t := (gmap string (gset string)).

(** ** The database file, as [sqlite3] shows it *)

Module Sqlite.

(** A stored row of [service_dependencies]: the key column [id] and the
    three text columns. *)
Record row : Type := Row {
  id : nat;
  servicename : string;
  dependency : string;
  version : string
}.

Definition triple (r : row) : fact := (servicename r, dependency r, version r).

(** The file [db_filename]: either it cannot be opened, or it opens, and
    then the table [service_dependencies] is missing or holds rows. *)
Inductive database : Type :=
  | Unopenable (cause : string)
  | Opened (tbl : option (list row)).

(** [sqlite3.OperationalError], with its message. *)
Inductive exn : Type :=
  | OperationalError (msg : string).

Definition str (e : exn) : string :=
  match e with OperationalError msg => msg end.

Inductive outcome (A : Type) : Type :=
  | Returned (a : A)
  | Raised (e : exn).
Arguments Returned {A} a.
Arguments Raised {A} e.

(** An exception raised by a step skips the steps after it. *)
#[global] Instance outcome_bind : MBind outcome :=
  λ A B k c,
    match c with
    | Returned a => k a
    | Raised e => Raised e
    end.

(** [sqlite3.connect(db_filename)] *)
Definition connect (db : database) : outcome (option (list row)) :=
  match db with
  | Unopenable cause => Raised (OperationalError cause)
  | Opened tbl => Returned tbl
  end.

(** [SELECT servicename, dependency, version FROM service_dependencies],
    followed by [fetchall]: the three columns of every row, in the order of
    the scan, here that of the table. *)
Definition select_all (conn : option (list row)) : outcome (list fact) :=
  match conn with
  | None => Raised (OperationalError "no such table: service_dependencies")
  | Some tbl => Returned (triple <$> tbl)
  end.

(** [CREATE TABLE IF NOT EXISTS service_dependencies (...)] *)
Definition create_table_if_not_exists (conn : option (list row)) : list row :=
  default [] conn.

(** The key an [AUTOINCREMENT] column gives to a new row: one more than
    the largest key in use. *)
Definition next_id (tbl : list row) : nat :=
  S (foldr Nat.max 0 (id <$> tbl)).

(** [INSERT OR IGNORE INTO service_dependencies (servicename, dependency,
    version) VALUES (?, ?, ?)] under [UNIQUE(servicename, dependency,
    version)]: a row whose three columns are already stored is skipped,
    any other is added at the end of the table. *)
Definition insert_or_ignore (service_name dep ver : string)
    (tbl : list row) : list row :=
  if bool_decide ((service_name, dep, ver) ∈ triple <$> tbl)
  then tbl
  else tbl ++ [Row (next_id tbl) service_name dep ver].

End Sqlite.

Import Sqlite.

(** ** [dependencies.py]: writing and printing the fact store *)

Module DependenciesPy.

(** [save_dependencies_to_db]: the database after the call and the lines
    printed.  The whole body is inside [try]; [except Exception] prints the
    error. *)
Definition save_dependencies_to_db (service_name : string)
    (dependencies : list (string * string)) (db : database)
    : database * list string :=
  match connect db with
  | Raised e => (db, ["Error saving to DB: " +:+ str e])
  | Returned conn =>
      let tbl := create_table_if_not_exists conn in
      let tbl :=
        foldl (λ tbl '(dep, version),
                 insert_or_ignore service_name dep version tbl)
              tbl dependencies in
      (Opened (Some tbl),
       ["Dependencies for " +:+ service_name
          +:+ " saved successfully to the database."])
  end.

(** [print_db_contents]: the lines printed.  Here too the body is inside
    [try], and [except Exception] prints the error. *)
Definition print_db_contents (db : database) : list string :=
  match conn ← connect db; select_all conn with
  | Raised e => ["Error reading from DB: " +:+ str e]
  | Returned rows =>
      ["servicename, dependency, version";
       "---------------------------------"]
      ++ ((λ '(r0, r1, r2), r0 +:+ ", " +:+ r1 +:+ ", " +:+ r2) <$> rows)
  end.

End DependenciesPy.

(** ** [list.py]: loading, the graph builder, the resolver, the driver *)

Module ListPy.

(** [load_db]: no [try] here, an error of [connect] or [execute] leaves
    the function as an exception. *)
Definition load_db (db : database) : outcome (list fact) :=
  conn ← connect db;
  rows ← select_all conn;
  Returned rows.

(** Body of the loop of [build_reverse_graph]:
    [rev_graph.setdefault(dep, []).append((svc, ver))].  [setdefault] yields
    the list stored under [dep], storing a fresh empty one first when the key
    is absent; [append] extends that stored list in place. *)
Definition rev_graph_step (rev_graph : rev_graph_t) (row : fact) : rev_graph_t :=
  let '(svc, dep, ver) := row in
  <[dep := default [] (rev_graph !! dep) ++ [(svc, ver)]]> rev_graph.

Definition build_reverse_graph (rows : list fact) : rev_graph_t :=
  foldl rev_graph_step ∅ rows.

(** Body of the loop of [build_direct_map]:
    [direct.setdefault(svc, set()).add(dep)]. *)
Definition direct_map_step (direct : direct_map_t) (row : fact) : direct_map_t :=
  let '(svc, dep, _) := row in
  <[svc := default ∅ (direct !! svc) ∪ {[dep]}]> direct.

Definition build_direct_map (rows : list fact) : direct_map_t :=
  foldl direct_map_step ∅ rows.

(** The upstream resolver. *)

(** [{dep for dep, _ in candidates}] *)
Definition names_of (candidates : list dependent) : gset string :=
  list_to_set (candidates.*1).

(** The test of the loop of [compute_immediate_upstream]:
    [direct_map.get(dep, set()) & candidate_names], taken as a truth value:
    a set is true when it is not empty. *)
Definition depends_on_candidate (direct_map : direct_map_t)
    (candidate_names : gset string) (dep : string) : bool :=
  bool_decide (default ∅ (direct_map !! dep) ∩ candidate_names ≠ ∅).

(** Body of the loop: [continue] keeps [immediate] as it is, otherwise the
    pair is appended. *)
Definition immediate_step (direct_map : direct_map_t)
    (candidate_names : gset string)
    (immediate : list dependent) (c : dependent) : list dependent :=
  let '(dep, ver) := c in
  if depends_on_candidate direct_map candidate_names dep
  then immediate
  else immediate ++ [(dep, ver)].

Definition compute_immediate_upstream (service : string)
    (rev_graph : rev_graph_t) (direct_map : direct_map_t) : list dependent :=
  let candidates := default [] (rev_graph !! service) in
  let candidate_names := names_of candidates in
  foldl (immediate_step direct_map candidate_names) [] candidates.

(** The value of [results] in [main], for a service name given on the
    command line: the two maps are built from the rows, and [--reduce]
    selects the reduction over the plain reverse lookup. *)
Definition main_results (rows : list fact) (input_service : string)
    (reduce : bool) : list dependent :=
  let rev_graph := build_reverse_graph rows in
  let direct_map := build_direct_map rows in
  let upstream := default [] (rev_graph !! input_service) in
  if reduce
  then compute_immediate_upstream input_service rev_graph direct_map
  else upstream.

(** The parsed command line. *)
Record args : Type := Args {
  service : option string;
  reduce : bool;
  machine : bool
}.

(** [if args.service:] holds for a name that is given and not empty. *)
Definition given (o : option string) : option string :=
  match o with
  | Some "" => None
  | _ => o
  end.

(** [main]: the lines printed, and how the call ends.  [load_db] is called
    outside any [try]. *)
Definition main (a : args) (db : database) : list string * outcome unit :=
  match load_db db with
  | Raised e => ([], Raised e)
  | Returned [] => (["No dependency data found in the DB."], Returned ())
  | Returned rows =>
      match given (service a) with
      | Some input_service =>
          let results := main_results rows input_service (reduce a) in
          if machine a
          then ((λ '(dep, ver), dep +:+ "," +:+ ver) <$> results,
                Returned ())
          else ("servicename, dependency, version"
                  :: ((λ '(dep, ver),
                         input_service +:+ ", " +:+ dep +:+ ", " +:+ ver)
                        <$> results),
                Returned ())
      | None =>
          if machine a
          then ((λ '(svc, dep, ver), svc +:+ "," +:+ dep +:+ "," +:+ ver)
                  <$> rows,
                Returned ())
          else ("servicename, dependency, version"
                  :: ((λ '(svc, dep, ver),
                         svc +:+ ", " +:+ dep +:+ ", " +:+ ver) <$> rows),
                Returned ())
      end
  end.

End ListPy.

Import ListPy.

(** ** [dependencies.py]: the driver *)

Module DependenciesPyDriver.

Import DependenciesPy.

(** What the two calls that reach outside the program give to [main]: the
    lines each prints and the value each returns.  [get_current_service]
    reads [settings.gradle] and returns the project name or [None];
    [get_dependencies] runs Gradle and returns the (dependency, version)
    pairs found in its output. *)
Record world : Type := World {
  get_current_service : list string * option string;
  get_dependencies : list string * list (string * string)
}.

(** The line feed that starts one of the printed strings. *)
Definition newline : string :=
  String (Ascii.Ascii false true false true false false false false) "".

(** [main]: the database after the run and the lines printed.
    [if not service_name:] holds for [None] and for the empty name;
    [if dependencies:] holds for a list that is not empty. *)
Definition main (w : world) (db : database) : database * list string :=
  let '(out_service, service_name) := get_current_service w in
  match given service_name with
  | None =>
      (db, out_service
           ++ ["Could not determine the current service name from settings.gradle."])
  | Some service_name =>
      let '(out_gradle, dependencies) := get_dependencies w in
      let out :=
        out_service ++ ["Service Name: " +:+ service_name] ++ out_gradle in
      match dependencies with
      | [] => (db, out ++ ["No dependencies found."])
      | _ =>
          let found :=
            "Found dependencies:"
              :: ((λ '(dep, ver), "  " +:+ dep +:+ " - " +:+ ver)
                    <$> dependencies) in
          let '(db', out_save) :=
            save_dependencies_to_db service_name dependencies db in
          (db',
           out ++ found ++ out_save
             ++ [newline
                   +:+ "Saved records in SQLite (servicename, dependency, version):"]
             ++ print_db_contents db')
      end
  end.

End DependenciesPyDriver.

(** ** The words of the specification *)

Module Spec.

(** The facts of the input that name [key] as their dependency, in input
    order. *)
Definition facts_naming (key : string) (rows : list fact) : list fact :=
  filter (λ row : fact, row.1.2 = key) rows.

(** The (dependent, version) pair a fact contributes. *)
Definition as_dependent (row : fact) : dependent := (row.1.1, row.2).

(** The forward dependency set of a service; no entry counts as no
    dependency. *)
Definition forward_set (direct_map : direct_map_t) (d : string) : gset string :=
  default ∅ (direct_map !! d).

(** A candidate is immediate when its forward dependency set does not
    intersect the candidate names. *)
Definition immediate (direct_map : direct_map_t)
    (candidate_names : gset string) (c : dependent) : Prop :=
  forward_set direct_map c.1 ∩ candidate_names = ∅.

#[global] Instance immediate_dec direct_map candidate_names c :
  Decision (immediate direct_map candidate_names c).
Proof. unfold immediate. apply _. Defined.

(** [d] directly depends on [e]: some fact has [d] as its service and [e]
    as its dependency. *)
Definition depends_directly (rows : list fact) (d e : string) : Prop :=
  ∃ ver, (d, e, ver) ∈ rows.

(** The number of stored rows holding a triple. *)
Definition rows_holding (t : fact) (tbl : list row) : nat :=
  length (filter (λ r, triple r = t) tbl).

(** The uniqueness constraint of the table: no triple is stored twice. *)
Definition unique_triples (tbl : list row) : Prop :=
  NoDup (triple <$> tbl).

End Spec.

Import Spec.

(** ** The graph builder *)

Section builder.

Implicit Types (rows : list fact) (key : string).

Lemma facts_naming_snoc key rows svc dep ver :
  as_dependent <$> facts_naming key (rows ++ [(svc, dep, ver)])
  = (as_dependent <$> facts_naming key rows)
      ++ (if decide (dep = key) then [(svc, ver)] else []).
Proof.
  unfold facts_naming. rewrite filter_app, fmap_app. f_equal.
  rewrite filter_cons; simpl. destruct (decide (dep = key)); reflexivity.
Qed.

(** The entry of a key after the loop has run over [rows], from any
    starting dictionary. *)
Lemma rev_graph_foldl_lookup rows : ∀ (m : rev_graph_t) key,
  default [] (foldl rev_graph_step m rows !! key)
  = default [] (m !! key) ++ (as_dependent <$> facts_naming key rows).
Proof.
  induction rows as [|[[svc dep] ver] rows IH] using rev_ind; intros m key.
  - simpl. by rewrite app_nil_r.
  - rewrite foldl_app, facts_naming_snoc; simpl.
    destruct (decide (dep = key)) as [->|Hne].
    + rewrite lookup_insert_eq; simpl. by rewrite IH, app_assoc.
    + rewrite lookup_insert_ne by done. by rewrite IH, app_nil_r.
Qed.

(** A key is in the dictionary exactly when a fact names it. *)
Lemma rev_graph_foldl_None rows : ∀ (m : rev_graph_t) key,
  foldl rev_graph_step m rows !! key = None
  ↔ m !! key = None ∧ facts_naming key rows = [].
Proof.
  induction rows as [|[[svc dep] ver] rows IH] using rev_ind; intros m key.
  - simpl. split; [intros H; by split | by intros [H _]].
  - rewrite foldl_app; simpl. unfold facts_naming in *.
    rewrite filter_app, filter_cons; simpl.
    destruct (decide (dep = key)) as [->|Hne].
    + rewrite lookup_insert_eq. split; [done|].
      intros [_ H]. by apply app_eq_nil in H as [_ ?].
    + rewrite lookup_insert_ne, app_nil_r by done. apply IH.
Qed.

Lemma build_reverse_graph_lookup rows key :
  build_reverse_graph rows !! key
  = match as_dependent <$> facts_naming key rows with
    | [] => None
    | l => Some l
    end.
Proof.
  unfold build_reverse_graph.
  pose proof (rev_graph_foldl_lookup rows ∅ key) as Hl.
  pose proof (rev_graph_foldl_None rows ∅ key) as Hn.
  rewrite lookup_empty in Hl, Hn. simpl in Hl.
  destruct (foldl rev_graph_step ∅ rows !! key) as [l|] eqn:E; simpl in Hl.
  - subst l. destruct (facts_naming key rows) as [|f fs] eqn:F; simpl.
    + assert (@None (list dependent) = None ∧ @nil fact = []) as H by done.
      apply Hn in H. discriminate.
    + done.
  - destruct Hn as [Hn _]. destruct (Hn eq_refl) as [_ ->]. done.
Qed.

End builder.

(** ** The resolver *)

Section resolver.

Implicit Types (direct_map : direct_map_t) (rev_graph : rev_graph_t).
Implicit Types (names : gset string) (c : dependent).

Lemma depends_on_candidate_false direct_map names c :
  depends_on_candidate direct_map names c.1 = false
  ↔ immediate direct_map names c.
Proof.
  unfold depends_on_candidate, immediate, forward_set.
  rewrite bool_decide_eq_false. split; [apply dec_stable | by intros ? ?].
Qed.

(** The loop appends, to what it has so far, the candidates that pass
    the test, in the order it meets them. *)
Lemma immediate_foldl direct_map names (l : list dependent) :
  ∀ acc, foldl (immediate_step direct_map names) acc l
         = acc ++ filter (immediate direct_map names) l.
Proof.
  induction l as [|[dep ver] l IH]; intros acc; simpl.
  - by rewrite app_nil_r.
  - rewrite IH, filter_cons.
    destruct (depends_on_candidate direct_map names dep) eqn:E.
    + rewrite decide_False; [done|].
      intros H. apply (depends_on_candidate_false _ _ (dep, ver)) in H.
      simpl in H. congruence.
    + rewrite decide_True; [by rewrite <- app_assoc|].
      by apply (depends_on_candidate_false _ _ (dep, ver)).
Qed.

Lemma compute_immediate_upstream_filter service rev_graph direct_map :
  compute_immediate_upstream service rev_graph direct_map
  = filter (immediate direct_map (names_of (default [] (rev_graph !! service))))
           (default [] (rev_graph !! service)).
Proof. unfold compute_immediate_upstream. by rewrite immediate_foldl. Qed.

Lemma elem_of_names_of (l : list dependent) (e : string) :
  e ∈ names_of l ↔ ∃ ver, (e, ver) ∈ l.
Proof.
  unfold names_of. rewrite elem_of_list_to_set, list_elem_of_fmap. split.
  - intros [[e' ver] [-> H]]. by exists ver.
  - intros [ver H]. by exists (e, ver).
Qed.

(** Membership in the forward map built from the rows. *)
Lemma direct_map_foldl rows : ∀ (m : direct_map_t) (d e : string),
  e ∈ default ∅ (foldl direct_map_step m rows !! d)
  ↔ e ∈ default ∅ (m !! d) ∨ depends_directly rows d e.
Proof.
  unfold depends_directly.
  induction rows as [|[[svc dep] ver] rows IH]; intros m d e; simpl.
  - split; [by left|]. intros [H|[v H]]; [done|]. by apply elem_of_nil in H.
  - rewrite IH. destruct (decide (svc = d)) as [->|Hne].
    + rewrite lookup_insert_eq; simpl. rewrite elem_of_union, elem_of_singleton.
      split.
      * intros [[H| ->]|[v H]]; [by left| |].
        -- right. exists ver. apply elem_of_cons. by left.
        -- right. exists v. apply elem_of_cons. by right.
      * intros [H|[v H]]; [by left; left|].
        apply elem_of_cons in H as [H|H].
        -- simplify_eq. left; by right.
        -- right. by exists v.
    + rewrite lookup_insert_ne by done. split.
      * intros [H|[v H]]; [by left|]. right. exists v. apply elem_of_cons. by right.
      * intros [H|[v H]]; [by left|].
        apply elem_of_cons in H as [H|H]; [by simplify_eq|].
        right. by exists v.
Qed.

Lemma elem_of_forward_set rows (d e : string) :
  e ∈ forward_set (build_direct_map rows) d ↔ depends_directly rows d e.
Proof.
  unfold forward_set, build_direct_map. rewrite direct_map_foldl.
  rewrite lookup_empty; simpl.
  split; [intros [H|H]; [by apply not_elem_of_empty in H|done] | by right].
Qed.

Lemma main_results_raw rows service :
  main_results rows service false
  = as_dependent <$> facts_naming service rows.
Proof.
  unfold main_results. rewrite build_reverse_graph_lookup.
  by destruct (as_dependent <$> facts_naming service rows).
Qed.

Lemma main_results_immediate rows service :
  main_results rows service true
  = filter (immediate (build_direct_map rows)
              (names_of (main_results rows service false)))
           (main_results rows service false).
Proof. unfold main_results. apply compute_immediate_upstream_filter. Qed.

(** A candidate is left out exactly when it directly depends on some
    candidate, itself included. *)
Lemma excluded_iff rows service (d ver : string) :
  (d, ver) ∈ main_results rows service false →
  (d, ver) ∉ main_results rows service true
  ↔ ∃ e ver', (e, ver') ∈ main_results rows service false
              ∧ depends_directly rows d e.
Proof.
  intros Hc. rewrite main_results_immediate, list_elem_of_filter.
  unfold immediate; cbn [fst]. split.
  - intros Hn.
    destruct (decide (forward_set (build_direct_map rows) d
                        ∩ names_of (main_results rows service false) = ∅))
      as [He|Hne]; [by destruct Hn|].
    apply set_choose_L in Hne as [e He].
    apply elem_of_intersection in He as [Hf Hn'].
    apply elem_of_names_of in Hn' as [ver' Hn'].
    exists e, ver'. split; [done|]. by apply elem_of_forward_set.
  - intros (e & ver' & He & Hd) [Hi _].
    assert (e ∈ forward_set (build_direct_map rows) d
                ∩ names_of (main_results rows service false)) as Hin.
    { apply elem_of_intersection. split; [by apply elem_of_forward_set|].
      apply elem_of_names_of. by exists ver'. }
    rewrite Hi in Hin. by apply not_elem_of_empty in Hin.
Qed.

End resolver.

(** ** Properties of the resolver *)

(** Once the rows are loaded, [main] returns. *)
Lemma main_returns (a : args) (tbl : list row) :
  (main a (Opened (Some tbl))).2 = Returned ().
Proof.
  unfold main; simpl. destruct (triple <$> tbl); [done|].
  destruct (given (service a)), (machine a); reflexivity.
Qed.


(** C1.  In Immediate mode the result is the raw dependent list of the
    target, filtered: a candidate is kept if and only if its forward
    dependency set does not intersect the set of candidate names, and the
    kept candidates stand in candidate order with their versions. *)
Theorem immediate_mode_filter (rows : list fact) (service : string) :
  let candidates := default [] (build_reverse_graph rows !! service) in
  let candidate_names := names_of candidates in
  let direct_map := build_direct_map rows in
  main_results rows service true
  = filter (immediate direct_map candidate_names) candidates
  ∧ (∀ e, e ∈ candidate_names ↔ ∃ ver, (e, ver) ∈ candidates)
  ∧ (∀ d ver, (d, ver) ∈ main_results rows service true
              ↔ (d, ver) ∈ candidates
                ∧ forward_set direct_map d ∩ candidate_names = ∅).
Proof.
  intros candidates candidate_names direct_map.
  assert (main_results rows service true
          = filter (immediate direct_map candidate_names) candidates) as Heq
    by apply compute_immediate_upstream_filter.
  split; [exact Heq|]. split.
  - intros e. apply elem_of_names_of.
  - intros d ver. rewrite Heq, list_elem_of_filter.
    unfold immediate; cbn [fst]. tauto.
Qed.

(** C3.  The Immediate-mode sequence is a subsequence of the Raw-mode
    sequence. *)
Theorem immediate_sublist_raw (rows : list fact) (service : string) :
  main_results rows service true `sublist_of` main_results rows service false.
Proof. rewrite main_results_immediate. apply sublist_filter. Qed.

(** C4.  The list stored under a dependency key holds exactly the facts
    naming that dependency, as (dependent, version) pairs in input order;
    a key that no fact names is absent; a second build from the same input
    gives the same map. *)
Theorem reverse_map_input_order (rows : list fact) (key : string) :
  build_reverse_graph rows !! key
  = match as_dependent <$> facts_naming key rows with
    | [] => None
    | l => Some l
    end
  ∧ default [] (build_reverse_graph rows !! key)
    = as_dependent <$> facts_naming key rows
  ∧ (∀ rows', rows' = rows →
              build_reverse_graph rows' = build_reverse_graph rows).
Proof.
  split; [apply build_reverse_graph_lookup|]. split.
  - apply (main_results_raw rows key).
  - by intros rows' ->.
Qed.

Lemma reverse_map_input_order_witness :
  let rows := [("A","X","1.0"); ("B","X","1.0"); ("A","B","2.0")] in
  build_reverse_graph rows !! "X" = Some [("A","1.0"); ("B","1.0")]
  ∧ build_reverse_graph rows = build_reverse_graph rows.
Proof.
  intros rows.
  destruct (reverse_map_input_order rows "X") as (H1 & _ & H3).
  split; [etransitivity; [exact H1 | vm_compute; reflexivity]
         | exact (H3 rows eq_refl)].
Defined.

(** C5.  Raw mode returns the entry of the target in the reverse map as it
    is, every fact naming the target contributing its pair, and the empty
    sequence when the map has no entry for the target. *)
Theorem raw_mode_entry (rows : list fact) (service : string) :
  main_results rows service false
  = default [] (build_reverse_graph rows !! service)
  ∧ main_results rows service false
    = as_dependent <$> facts_naming service rows
  ∧ match build_reverse_graph rows !! service with
    | Some entry => main_results rows service false = entry
    | None => main_results rows service false = []
    end.
Proof.
  split; [reflexivity|]. split; [apply main_results_raw|].
  unfold main_results. by destruct (build_reverse_graph rows !! service).
Qed.

(** C6.  For a target with no entry in the reverse map, and so for any
    target when there is no fact at all, both modes return the empty
    sequence; and whatever the table holds, [main] returns without an
    exception once the rows are loaded. *)
Theorem absent_target_empty (rows : list fact) (service : string) :
  rows = [] ∨ build_reverse_graph rows !! service = None →
  main_results rows service false = []
  ∧ main_results rows service true = []
  ∧ (∀ a tbl, (main a (Opened (Some tbl))).2 = Returned ()).
Proof.
  intros H.
  assert (build_reverse_graph rows !! service = None) as Hn.
  { destruct H as [->|H]; [apply lookup_empty|exact H]. }
  unfold main_results, compute_immediate_upstream. rewrite Hn.
  split; [done|]. split; [done|]. apply main_returns.
Qed.

Lemma absent_target_empty_witness :
  ([("A","X","1.0")] = [] ∨
   build_reverse_graph [("A","X","1.0")] !! "Z" = None)
  ∧ main_results [("A","X","1.0")] "Z" false = []
  ∧ main_results [("A","X","1.0")] "Z" true = [].
Proof.
  split; [right; vm_compute; reflexivity|].
  destruct (absent_target_empty [("A","X","1.0")] "Z") as (H1 & H2 & _);
    [right; vm_compute; reflexivity|].
  split; [exact H1 | exact H2].
Defined.

(** C7.  Two candidates of the same name, whatever their versions, get
    the same verdict: both are in the Immediate-mode result or neither
    is. *)
Theorem same_name_same_verdict (rows : list fact) (service : string)
    (d v1 v2 : string) :
  (d, v1) ∈ main_results rows service false →
  (d, v2) ∈ main_results rows service false →
  v1 ≠ v2 →
  (d, v1) ∈ main_results rows service true
  ↔ (d, v2) ∈ main_results rows service true.
Proof.
  intros H1 H2 _.
  rewrite main_results_immediate, !list_elem_of_filter.
  unfold immediate; cbn [fst]. tauto.
Qed.

Lemma same_name_same_verdict_witness :
  let rows := [("A","X","1.0"); ("A","X","2.0"); ("B","X","1.0");
               ("A","B","2.0")] in
  ((("A","1.0") ∈ main_results rows "X" false
    ∧ ("A","2.0") ∈ main_results rows "X" false)
   ∧ "1.0" ≠ "2.0")
  ∧ (("A","1.0") ∈ main_results rows "X" true
     ↔ ("A","2.0") ∈ main_results rows "X" true).
Proof.
  intros rows.
  assert (main_results rows "X" false
          = [("A","1.0"); ("A","2.0"); ("B","1.0")]) as E
    by (vm_compute; reflexivity).
  assert (("A","1.0") ∈ main_results rows "X" false) as H1
    by (rewrite E; apply elem_of_cons; by left).
  assert (("A","2.0") ∈ main_results rows "X" false) as H2
    by (rewrite E; apply elem_of_cons; right; apply elem_of_cons; by left).
  assert ("1.0" ≠ "2.0") as H3 by discriminate.
  split; [done|].
  exact (same_name_same_verdict rows "X" "A" "1.0" "2.0" H1 H2 H3).
Defined.

(** C10.  A candidate with no entry in the forward map counts as having no
    dependency: the test of the loop is false for it and it is in the
    result. *)
Theorem no_forward_entry_immediate (service : string)
    (rev_graph : rev_graph_t) (direct_map : direct_map_t) (d ver : string) :
  (d, ver) ∈ default [] (rev_graph !! service) →
  direct_map !! d = None →
  depends_on_candidate direct_map
    (names_of (default [] (rev_graph !! service))) d = false
  ∧ (d, ver) ∈ compute_immediate_upstream service rev_graph direct_map.
Proof.
  intros Hc Hn.
  assert (immediate direct_map (names_of (default [] (rev_graph !! service)))
            (d, ver)) as Hi.
  { unfold immediate, forward_set; cbn [fst]. rewrite Hn; simpl.
    apply intersection_empty_l_L. }
  split.
  - by apply (depends_on_candidate_false _ _ (d, ver)).
  - rewrite compute_immediate_upstream_filter. by apply list_elem_of_filter.
Qed.

Lemma no_forward_entry_immediate_witness :
  let rev_graph : rev_graph_t := {[ "X" := [("A","1.0")] ]} in
  (("A","1.0") ∈ default [] (rev_graph !! "X")
   ∧ (∅ : direct_map_t) !! "A" = None)
  ∧ depends_on_candidate ∅ (names_of (default [] (rev_graph !! "X"))) "A"
    = false
  ∧ ("A","1.0") ∈ compute_immediate_upstream "X" rev_graph ∅.
Proof.
  intros rev_graph.
  assert (("A","1.0") ∈ default [] (rev_graph !! "X")) as H1
    by (vm_compute; apply elem_of_cons; by left).
  assert ((∅ : direct_map_t) !! "A" = None) as H2 by reflexivity.
  split; [done|].
  exact (no_forward_entry_immediate "X" rev_graph ∅ "A" "1.0" H1 H2).
Defined.

(** A candidate taken from maps built from one and the same fact list
    always has an entry in the forward map: the fact that makes it a
    candidate is also one of its outgoing facts. *)
Lemma candidate_has_forward_entry (rows : list fact) (service d ver : string) :
  (d, ver) ∈ main_results rows service false →
  service ∈ forward_set (build_direct_map rows) d.
Proof.
  rewrite main_results_raw, list_elem_of_fmap.
  intros [[[svc dep] v] [Heq Hin]].
  unfold as_dependent in Heq; simpl in Heq. simplify_eq.
  apply list_elem_of_filter in Hin as [Hk Hin]; simpl in Hk; subst dep.
  apply elem_of_forward_set. by exists v.
Qed.

(** C2.  The reduction compares a candidate with every candidate name, its
    own included.  With the facts (A, X, 1.0) and (A, A, 1.0) the only
    dependent of X is A, no candidate other than A exists, and yet A is
    left out of the Immediate-mode result, because A depends on A. *)
Theorem self_dependency_excluded :
  let rows := [("A","X","1.0"); ("A","A","1.0")] in
  main_results rows "X" false = [("A","1.0")]
  ∧ main_results rows "X" true = []
  ∧ ¬ (∃ e ver, e ≠ "A"
                ∧ (e, ver) ∈ main_results rows "X" false
                ∧ depends_directly rows "A" e).
Proof.
  intros rows.
  assert (main_results rows "X" false = [("A","1.0")]) as E
    by (vm_compute; reflexivity).
  split; [exact E|]. split; [vm_compute; reflexivity|].
  intros (e & ver & Hne & Hin & _). rewrite E in Hin.
  apply list_elem_of_singleton in Hin. by simplify_eq.
Qed.

(** The other half holds on every input: a candidate that directly depends
    on another candidate is left out. *)
Lemma depends_on_other_candidate_excluded (rows : list fact)
    (service d ver e ver' : string) :
  (d, ver) ∈ main_results rows service false →
  (e, ver') ∈ main_results rows service false →
  e ≠ d →
  depends_directly rows d e →
  (d, ver) ∉ main_results rows service true.
Proof.
  intros Hd He _ Hdep. apply excluded_iff; [done|]. by exists e, ver'.
Qed.

(** ** The fact store *)

Section store.

Implicit Types (tbl : list row) (t : fact).

Lemma insert_or_ignore_present service_name dep ver tbl :
  (service_name, dep, ver) ∈ triple <$> tbl →
  insert_or_ignore service_name dep ver tbl = tbl.
Proof. intros H. unfold insert_or_ignore. by rewrite bool_decide_eq_true_2. Qed.

Lemma insert_or_ignore_holds service_name dep ver tbl :
  (service_name, dep, ver)
    ∈ triple <$> insert_or_ignore service_name dep ver tbl.
Proof.
  unfold insert_or_ignore. case_bool_decide as H; [done|].
  rewrite fmap_app. apply elem_of_app. right. apply elem_of_cons. by left.
Qed.

Lemma insert_or_ignore_unique service_name dep ver tbl :
  unique_triples tbl →
  unique_triples (insert_or_ignore service_name dep ver tbl).
Proof.
  unfold unique_triples, insert_or_ignore. intros Hu.
  case_bool_decide as H; [done|].
  rewrite fmap_app. apply NoDup_app. split; [done|]. split.
  - intros t Ht Ht'. apply list_elem_of_singleton in Ht'. by subst t.
  - apply NoDup_singleton.
Qed.

(** After the first insertion of a triple, the next ones change
    nothing. *)
Lemma insert_or_ignore_idemp service_name dep ver tbl :
  insert_or_ignore service_name dep ver
    (insert_or_ignore service_name dep ver tbl)
  = insert_or_ignore service_name dep ver tbl.
Proof. apply insert_or_ignore_present, insert_or_ignore_holds. Qed.

Lemma insert_loop_replicate service_name dep ver (n : nat) : ∀ tbl,
  (1 ≤ n)%nat →
  foldl (λ tbl '(dep, version),
           insert_or_ignore service_name dep version tbl)
        tbl (replicate n (dep, ver))
  = insert_or_ignore service_name dep ver tbl.
Proof.
  induction n as [|n IH]; intros tbl Hn; [lia|]. simpl.
  destruct n as [|n]; [done|].
  rewrite IH by lia. apply insert_or_ignore_idemp.
Qed.

(** In a table that obeys the constraint, a stored triple is held by one
    row. *)
Lemma rows_holding_unique t tbl :
  unique_triples tbl → t ∈ triple <$> tbl → rows_holding t tbl = 1.
Proof.
  unfold unique_triples, rows_holding.
  induction tbl as [|r tbl IH]; simpl; intros Hu Hin.
  - by apply elem_of_nil in Hin.
  - apply NoDup_cons in Hu as [Hr Hu]. rewrite filter_cons.
    destruct (decide (triple r = t)) as [<-|Hne]; simpl.
    + f_equal. apply length_zero_iff_nil.
      destruct (filter (λ r0, triple r0 = triple r) tbl) as [|r' l] eqn:F;
        [done|].
      assert (r' ∈ filter (λ r0, triple r0 = triple r) tbl) as Hr'
        by (rewrite F; apply elem_of_cons; by left).
      apply list_elem_of_filter in Hr' as [Heq Hr'].
      destruct Hr. rewrite <- Heq. by apply list_elem_of_fmap_2.
    + apply IH; [done|]. apply elem_of_cons in Hin as [Hin|Hin]; [|done].
      by destruct Hne.
Qed.

End store.

Import DependenciesPy.

(** C8.  Saving a (service, dependency, version) triple [n] times, in one
    call that lists it [n] times or in [n] calls, leaves one row holding the
    triple; only the first insertion can add a row, and the calls report
    success, not an error. *)
Theorem repeated_insert_one_row (service_name dep ver : string)
    (tbl : option (list row)) (n : nat) :
  unique_triples (default [] tbl) →
  (1 ≤ n)%nat →
  let saved := insert_or_ignore service_name dep ver (default [] tbl) in
  let report := ["Dependencies for " +:+ service_name
                   +:+ " saved successfully to the database."] in
  save_dependencies_to_db service_name (replicate n (dep, ver)) (Opened tbl)
  = (Opened (Some saved), report)
  ∧ Nat.iter n (λ db, (save_dependencies_to_db service_name [(dep, ver)] db).1)
             (Opened tbl)
    = Opened (Some saved)
  ∧ save_dependencies_to_db service_name [(dep, ver)] (Opened (Some saved))
    = (Opened (Some saved), report)
  ∧ rows_holding (service_name, dep, ver) saved = 1
  ∧ unique_triples saved.
Proof.
  intros Hu Hn saved report.
  assert (save_dependencies_to_db service_name [(dep, ver)]
            (Opened (Some saved)) = (Opened (Some saved), report)) as Hagain.
  { unfold save_dependencies_to_db; simpl.
    unfold saved. by rewrite insert_or_ignore_idemp. }
  assert (unique_triples saved) as Hs by by apply insert_or_ignore_unique.
  split; [|split; [|split; [exact Hagain|split; [|exact Hs]]]].
  - unfold save_dependencies_to_db; simpl.
    by rewrite insert_loop_replicate.
  - clear Hu Hs. induction n as [|n IH]; [lia|]. simpl.
    destruct n as [|n]; [done|].
    rewrite IH by lia. by rewrite Hagain.
  - apply rows_holding_unique; [done|]. apply insert_or_ignore_holds.
Qed.

Lemma repeated_insert_one_row_witness :
  let saved := insert_or_ignore "svc" "lib" "1.0" [] in
  (unique_triples (default [] None) ∧ (1 ≤ 3)%nat)
  ∧ save_dependencies_to_db "svc" (replicate 3 ("lib", "1.0")) (Opened None)
    = (Opened (Some saved),
       ["Dependencies for svc saved successfully to the database."])
  ∧ rows_holding ("svc", "lib", "1.0") saved = 1.
Proof.
  intros saved.
  assert (unique_triples (default [] None)) as Hu by apply NoDup_nil_2.
  assert (1 ≤ 3)%nat as Hn by lia.
  split; [done|].
  destruct (repeated_insert_one_row "svc" "lib" "1.0" None 3 Hu Hn)
    as (H1 & _ & _ & H4 & _).
  split; [exact H1 | exact H4].
Defined.

(** The constraint is an invariant of [save_dependencies_to_db]. *)
Lemma save_keeps_unique (service_name : string)
    (dependencies : list (string * string)) (tbl : option (list row)) :
  unique_triples (default [] tbl) →
  ∃ tbl', (save_dependencies_to_db service_name dependencies (Opened tbl)).1
          = Opened (Some tbl')
          ∧ unique_triples tbl'.
Proof.
  unfold save_dependencies_to_db; simpl. unfold create_table_if_not_exists.
  generalize (default [] tbl) as t. clear tbl.
  induction dependencies as [|[dep ver] deps IH]; intros t Hu; simpl.
  - by exists t.
  - apply IH. by apply insert_or_ignore_unique.
Qed.

(** ** Failure of the store *)

(** C9.  [list.py] does not catch a failure of the load: when the database
    cannot be opened, or opens without the table, [main] prints nothing and
    ends with the exception of [sqlite3].  [print_db_contents] of
    [dependencies.py], which runs the same query, does print a message. *)
Theorem load_failure_uncaught (a : args) (cause : string) :
  main a (Unopenable cause) = ([], Raised (OperationalError cause))
  ∧ main a (Opened None)
    = ([], Raised (OperationalError "no such table: service_dependencies"))
  ∧ print_db_contents (Unopenable cause)
    = ["Error reading from DB: " +:+ cause]
  ∧ print_db_contents (Opened None)
    = ["Error reading from DB: no such table: service_dependencies"].
Proof. repeat split; reflexivity. Qed.

(** The scenarios of the specification. *)
Example scenario_raw :
  main_results [("A","X","1.0"); ("B","X","1.0"); ("A","B","2.0")] "X" false
  = [("A","1.0"); ("B","1.0")].
Proof. vm_compute. reflexivity. Qed.

Example scenario_immediate :
  main_results [("A","X","1.0"); ("B","X","1.0"); ("A","B","2.0")] "X" true
  = [("B","1.0")].
Proof. vm_compute. reflexivity. Qed.

Example scenario_machine_output :
  main (Args (Some "X") true true)
       (Opened (Some [Row 1 "A" "X" "1.0"; Row 2 "B" "X" "1.0";
                      Row 3 "A" "B" "2.0"]))
  = (["B,1.0"], Returned ()).
Proof. vm_compute. reflexivity. Qed.


(** ** Further properties of the graph builder and the resolver *)

(** The forward map holds, under each service, exactly the dependencies its
    facts name; a service without facts has no entry, and no entry is an
    empty set. *)
Theorem direct_map_entries (rows : list fact) (d : string) :
  (∀ e, e ∈ default ∅ (build_direct_map rows !! d)
        ↔ ∃ ver, (d, e, ver) ∈ rows)
  ∧ (build_direct_map rows !! d = None
     ↔ ∀ e ver, (d, e, ver) ∉ rows)
  ∧ build_direct_map rows !! d ≠ Some ∅.
Proof.
  assert (∀ (l : list fact) (m : direct_map_t),
            foldl direct_map_step m l !! d = None
            ↔ m !! d = None ∧ ∀ e ver, (d, e, ver) ∉ l) as Hnone.
  { induction l as [|[[svc dep] v] l IH]; intros m; simpl.
    - split; [intros H; split; [done|]; intros e ver Hin;
              by apply elem_of_nil in Hin | by intros [H _]].
    - rewrite IH. destruct (decide (svc = d)) as [->|Hne].
      + rewrite lookup_insert_eq. split; [by intros [? _]|].
        intros [_ H]. destruct (H dep v). apply elem_of_cons. by left.
      + rewrite lookup_insert_ne by done. split.
        * intros [Hm H]. split; [done|]. intros e ver Hin.
          apply elem_of_cons in Hin as [Hin|Hin]; [by simplify_eq|].
          by apply (H e ver).
        * intros [Hm H]. split; [done|]. intros e ver Hin.
          apply (H e ver). apply elem_of_cons. by right. }
  assert (∀ (l : list fact) (m : direct_map_t),
            m !! d ≠ Some ∅ → foldl direct_map_step m l !! d ≠ Some ∅)
    as Hne.
  { induction l as [|[[svc dep] v] l IH]; intros m Hm; simpl; [done|].
    apply IH. destruct (decide (svc = d)) as [->|Hsd].
    - rewrite lookup_insert_eq. intros [= H].
      assert (dep ∈ (∅ : gset string)) as Hin
        by (rewrite <- H; apply elem_of_union; right;
            by apply elem_of_singleton).
      by apply not_elem_of_empty in Hin.
    - by rewrite lookup_insert_ne. }
  split; [|split].
  - intros e. apply (elem_of_forward_set rows d e).
  - unfold build_direct_map. rewrite Hnone, lookup_empty.
    split; [by intros [_ ?] | by intros ?; split].
  - apply Hne. by rewrite lookup_empty.
Qed.

(** The two maps are each other's converse: a service is in the dependent
    list of a key exactly when the key is in the forward set of the
    service. *)
Theorem maps_converse (rows : list fact) (s d : string) :
  (∃ ver, (d, ver) ∈ default [] (build_reverse_graph rows !! s))
  ↔ s ∈ default ∅ (build_direct_map rows !! d).
Proof.
  change (default ∅ (build_direct_map rows !! d))
    with (forward_set (build_direct_map rows) d).
  rewrite elem_of_forward_set.
  change (default [] (build_reverse_graph rows !! s))
    with (main_results rows s false).
  rewrite main_results_raw. unfold depends_directly. split.
  - intros [ver H]. apply list_elem_of_fmap in H as [[[svc dep] v] [Heq Hin]].
    unfold as_dependent in Heq; simpl in Heq. simplify_eq.
    apply list_elem_of_filter in Hin as [Hk Hin]; simpl in Hk; subst dep.
    by exists v.
  - intros [ver H]. exists ver.
    apply (list_elem_of_fmap_2' as_dependent _ (d, s, ver)); [|done].
    by apply list_elem_of_filter.
Qed.

(** When the target is recorded as depending on itself, Immediate mode
    returns nothing: every candidate depends on the target, and the target
    is a candidate name. *)
Theorem self_dependent_target_empty (rows : list fact) (service ver : string) :
  (service, service, ver) ∈ rows →
  main_results rows service true = [].
Proof.
  intros Hself. rewrite main_results_immediate.
  assert (service ∈ names_of (main_results rows service false)) as Hname.
  { apply elem_of_names_of. exists ver. rewrite main_results_raw.
    apply (list_elem_of_fmap_2' as_dependent _ (service, service, ver));
      [|done].
    by apply list_elem_of_filter. }
  destruct (filter _ _) as [|[d v] l] eqn:F; [done|].
  assert ((d, v) ∈ filter (immediate (build_direct_map rows)
                             (names_of (main_results rows service false)))
                          (main_results rows service false)) as Hin
    by (rewrite F; apply elem_of_cons; by left).
  apply list_elem_of_filter in Hin as [Hi Hin].
  apply candidate_has_forward_entry in Hin.
  unfold immediate in Hi; cbn [fst] in Hi.
  assert (service ∈ (∅ : gset string)) as Habs
    by (rewrite <- Hi; by apply elem_of_intersection).
  by apply not_elem_of_empty in Habs.
Qed.

Lemma self_dependent_target_empty_witness :
  let rows := [("A","X","1.0"); ("X","X","2.0"); ("B","X","1.0")] in
  ("X","X","2.0") ∈ rows
  ∧ main_results rows "X" false = [("A","1.0"); ("X","2.0"); ("B","1.0")]
  ∧ main_results rows "X" true = [].
Proof.
  intros rows.
  assert (("X","X","2.0") ∈ rows) as H
    by (apply elem_of_cons; right; apply elem_of_cons; by left).
  split; [exact H|]. split; [vm_compute; reflexivity|].
  exact (self_dependent_target_empty rows "X" "2.0" H).
Defined.

(** Read on the facts: a service is in the Immediate-mode result exactly
    when it is a dependent of the target and no fact records it as
    depending on a dependent of the target, itself included. *)
Theorem immediate_iff_no_dependency_on_candidate (rows : list fact)
    (service d ver : string) :
  (d, ver) ∈ main_results rows service true
  ↔ (d, ver) ∈ main_results rows service false
    ∧ ∀ e ver' ver'', (e, ver') ∈ main_results rows service false →
                      (d, e, ver'') ∉ rows.
Proof.
  split.
  - intros Hin.
    assert ((d, ver) ∈ main_results rows service false) as Hc.
    { rewrite main_results_immediate in Hin.
      by apply list_elem_of_filter in Hin as [_ ?]. }
    split; [done|]. intros e ver' ver'' He Hf.
    assert ((d, ver) ∉ main_results rows service true) as Hn; [|done].
    apply excluded_iff; [done|]. exists e, ver'. split; [done|].
    by exists ver''.
  - intros [Hc Hno].
    destruct (decide ((d, ver) ∈ main_results rows service true))
      as [Hin|Hn]; [done|].
    apply excluded_iff in Hn as (e & ver' & He & [ver'' Hf]); [|done].
    by destruct (Hno e ver' ver'' He).
Qed.

(** The order in which the rows are read only changes the order of the
    answer: reading the same rows in another order gives, in both modes, a
    rearrangement of the same (dependent, version) pairs. *)
Theorem results_up_to_row_order (rows rows' : list fact)
    (service : string) (reduce : bool) :
  rows ≡ₚ rows' →
  main_results rows service reduce ≡ₚ main_results rows' service reduce.
Proof.
  intros Hp.
  assert (main_results rows service false ≡ₚ main_results rows' service false)
    as Hraw.
  { rewrite !main_results_raw. unfold facts_naming. by rewrite Hp. }
  destruct reduce; [|exact Hraw].
  rewrite !main_results_immediate.
  assert (names_of (main_results rows service false)
          = names_of (main_results rows' service false)) as Hnames.
  { unfold names_of. by rewrite Hraw. }
  rewrite Hnames, Hraw.
  erewrite list_filter_iff; [reflexivity|].
  intros [d v]. unfold immediate; cbn [fst].
  assert (forward_set (build_direct_map rows) d
          = forward_set (build_direct_map rows') d) as ->; [|done].
  apply set_eq. intros e. rewrite !elem_of_forward_set.
  unfold depends_directly. by setoid_rewrite Hp.
Qed.

Lemma results_up_to_row_order_witness :
  let rows := [("A","X","1.0"); ("B","X","1.0"); ("A","B","2.0")] in
  let rows' := [("B","X","1.0"); ("A","B","2.0"); ("A","X","1.0")] in
  rows ≡ₚ rows'
  ∧ main_results rows "X" false ≡ₚ main_results rows' "X" false
  ∧ main_results rows "X" true ≡ₚ main_results rows' "X" true.
Proof.
  intros rows rows'.
  assert (rows ≡ₚ rows') as Hp
    by (apply (Permutation_cons_append [("B","X","1.0"); ("A","B","2.0")])).
  split; [exact Hp|].
  split; [exact (results_up_to_row_order rows rows' "X" false Hp)
         | exact (results_up_to_row_order rows rows' "X" true Hp)].
Defined.

(** ** Further properties of the driver of [list.py] *)

(** An empty service name counts as no service name: all rows are listed,
    and [--reduce] changes nothing then. *)
Theorem empty_service_lists_all (reduce reduce' machine : bool)
    (db : database) :
  main (Args (Some "") reduce machine) db
  = main (Args None reduce' machine) db
  ∧ ∀ tbl, tbl ≠ [] →
      main (Args (Some "") reduce true) (Opened (Some tbl))
      = ((λ r, servicename r +:+ "," +:+ dependency r +:+ "," +:+ version r)
           <$> tbl,
         Returned ()).
Proof.
  split.
  - unfold main. destruct (load_db db) as [[|row rows]|e]; reflexivity.
  - intros [|r tbl] Hne; [done|]. unfold main; simpl. f_equal.
    rewrite <- list_fmap_compose. f_equal.
Qed.

(** The rows of a table that name a service, read as facts. *)
Lemma facts_naming_table (tbl : list row) (service : string) :
  as_dependent <$> facts_naming service (triple <$> tbl)
  = (λ r, (servicename r, version r))
      <$> filter (λ r, dependency r = service) tbl.
Proof.
  unfold facts_naming. induction tbl as [|r tbl IH]; [done|].
  rewrite fmap_cons, !filter_cons. cbn [triple fst snd].
  destruct (decide (dependency r = service)); [|exact IH].
  rewrite !fmap_cons. by rewrite IH.
Qed.

(** For a table that is not empty and a service name that is not empty,
    [main] without [--reduce] prints one record for each row naming the
    service as its dependency, in table order: [dependent,version] in
    machine mode; after a header, [service, dependent, version] in the
    other mode. *)
Theorem raw_listing_output (tbl : list row) (service : string)
    (machine : bool) :
  tbl ≠ [] →
  service ≠ "" →
  let named := filter (λ r, dependency r = service) tbl in
  main (Args (Some service) false machine) (Opened (Some tbl))
  = (if machine
     then (λ r, servicename r +:+ "," +:+ version r) <$> named
     else "servicename, dependency, version"
            :: ((λ r, service +:+ ", " +:+ servicename r
                        +:+ ", " +:+ version r) <$> named),
     Returned ()).
Proof.
  intros Htbl Hs named.
  assert (main_results (triple <$> tbl) service false
          = (λ r, (servicename r, version r)) <$> named) as Hres
    by (rewrite main_results_raw; apply facts_naming_table).
  destruct service as [|c s']; [done|].
  destruct tbl as [|r0 tbl0] eqn:E; [done|]. rewrite <- E in *.
  unfold main.
  assert (load_db (Opened (Some tbl))
          = Returned (triple r0 :: (triple <$> tbl0))) as ->
    by by rewrite E.
  cbn [ListPy.service ListPy.reduce ListPy.machine given].
  rewrite E, fmap_cons in Hres. rewrite Hres.
  destruct machine; by rewrite <- list_fmap_compose.
Qed.

Lemma raw_listing_output_witness :
  let tbl := [Row 1 "A" "X" "1.0"; Row 2 "A" "B" "2.0"; Row 3 "B" "X" "1.1"] in
  (tbl ≠ [] ∧ "X" ≠ "")
  ∧ main (Args (Some "X") false true) (Opened (Some tbl))
    = (["A,1.0"; "B,1.1"], Returned ()).
Proof.
  intros tbl.
  assert (tbl ≠ []) as H1 by discriminate.
  assert ("X" ≠ "") as H2 by discriminate.
  split; [done|].
  etransitivity; [exact (raw_listing_output tbl "X" true H1 H2)|].
  vm_compute; reflexivity.
Defined.

(** [--reduce] never adds output: for every database and every other
    argument, the lines printed with [--reduce] are a subsequence of the
    lines printed without it, and the run ends the same way. *)
Theorem reduce_output_sublist (service : option string) (machine : bool)
    (db : database) :
  (main (Args service true machine) db).1
    `sublist_of` (main (Args service false machine) db).1
  ∧ (main (Args service true machine) db).2
    = (main (Args service false machine) db).2.
Proof.
  unfold main. destruct (load_db db) as [[|row rows]|e]; [done..| |done].
  cbn [ListPy.service ListPy.reduce ListPy.machine].
  destruct (given service) as [s|]; [|by destruct machine].
  assert (main_results (row :: rows) s true
            `sublist_of` main_results (row :: rows) s false) as Hsub
    by (rewrite main_results_immediate; apply sublist_filter).
  destruct machine; simpl; (split; [|done]).
  - by apply fmap_sublist.
  - apply sublist_skip. by apply fmap_sublist.
Qed.

(** ** Further properties of the fact store *)

Section save_loop.

Variable service_name : string.

(** The loop of [save_dependencies_to_db]. *)
Local Abbreviation insert_each :=
  (foldl (λ tbl '(dep, version),
            insert_or_ignore service_name dep version tbl)).

Lemma insert_or_ignore_prefix dep ver (tbl : list row) :
  tbl `prefix_of` insert_or_ignore service_name dep ver tbl.
Proof.
  unfold insert_or_ignore. case_bool_decide; [done|].
  by apply prefix_app_r.
Qed.

Lemma insert_or_ignore_triples dep ver (tbl : list row) (t : fact) :
  t ∈ triple <$> insert_or_ignore service_name dep ver tbl
  ↔ t ∈ triple <$> tbl ∨ t = (service_name, dep, ver).
Proof.
  unfold insert_or_ignore. case_bool_decide as H.
  - split; [by left|]. by intros [?| ->].
  - rewrite fmap_app, elem_of_app; simpl.
    by rewrite list_elem_of_singleton.
Qed.

Lemma insert_each_prefix (dependencies : list (string * string)) :
  ∀ tbl : list row, tbl `prefix_of` insert_each tbl dependencies.
Proof.
  induction dependencies as [|[dep ver] deps IH]; intros tbl; simpl; [done|].
  etransitivity; [apply (insert_or_ignore_prefix dep ver)|apply IH].
Qed.

Lemma insert_each_triples (dependencies : list (string * string)) :
  ∀ (tbl : list row) (t : fact),
    t ∈ triple <$> insert_each tbl dependencies
    ↔ t ∈ triple <$> tbl
      ∨ ∃ dep ver, (dep, ver) ∈ dependencies ∧ t = (service_name, dep, ver).
Proof.
  induction dependencies as [|[dep ver] deps IH]; intros tbl t; simpl.
  - split; [by left|]. intros [H|(d & v & H & _)]; [done|].
    by apply elem_of_nil in H.
  - rewrite IH, insert_or_ignore_triples. split.
    + intros [[H| ->]|(d & v & H & ->)]; [by left| |].
      * right. exists dep, ver. split; [apply elem_of_cons; by left|done].
      * right. exists d, v. split; [apply elem_of_cons; by right|done].
    + intros [H|(d & v & H & ->)]; [by left; left|].
      apply elem_of_cons in H as [H|H].
      * simplify_eq. left; by right.
      * right. by exists d, v.
Qed.

(** Rows that are all stored already leave the table as it is. *)
Lemma insert_each_stored (dependencies : list (string * string)) :
  ∀ tbl : list row,
    (∀ dep ver, (dep, ver) ∈ dependencies →
                (service_name, dep, ver) ∈ triple <$> tbl) →
    insert_each tbl dependencies = tbl.
Proof.
  induction dependencies as [|[dep ver] deps IH]; intros tbl H; simpl; [done|].
  rewrite insert_or_ignore_present
    by (apply H; apply elem_of_cons; by left).
  apply IH. intros d v Hin. apply H. apply elem_of_cons. by right.
Qed.




End save_loop.

(** A save only appends: the rows stored before keep their place at the
    head of the table, and the triples stored afterwards are the old ones
    and those of the saved service with the listed (dependency, version)
    pairs, and no others. *)
Theorem save_appends (service_name : string)
    (dependencies : list (string * string)) (tbl : option (list row)) :
  ∃ tbl',
    (save_dependencies_to_db service_name dependencies (Opened tbl)).1
    = Opened (Some tbl')
    ∧ default [] tbl `prefix_of` tbl'
    ∧ ∀ t, t ∈ triple <$> tbl'
           ↔ t ∈ triple <$> default [] tbl
             ∨ ∃ dep ver, (dep, ver) ∈ dependencies
                          ∧ t = (service_name, dep, ver).
Proof.
  unfold save_dependencies_to_db; simpl. unfold create_table_if_not_exists.
  eexists. split; [reflexivity|]. split.
  - apply insert_each_prefix.
  - apply insert_each_triples.
Qed.

(** Running the same save a second time changes nothing and prints the same
    line, whatever the list of dependencies and whatever the state of the
    database file. *)
Theorem save_twice (service_name : string)
    (dependencies : list (string * string)) (db : database) :
  save_dependencies_to_db service_name dependencies
    (save_dependencies_to_db service_name dependencies db).1
  = save_dependencies_to_db service_name dependencies db.
Proof.
  destruct db as [cause|tbl]; [reflexivity|].
  unfold save_dependencies_to_db; simpl. unfold create_table_if_not_exists.
  f_equal. do 2 f_equal. apply insert_each_stored.
  intros dep ver Hin. apply insert_each_triples. right. by exists dep, ver.
Qed.



Lemma save_keeps_unique_witness :
  unique_triples (default [] (Some [Row 1 "A" "X" "1.0"]))
  ∧ ∃ tbl',
      (save_dependencies_to_db "A" [("X","1.0"); ("Y","2.0"); ("X","1.0")]
         (Opened (Some [Row 1 "A" "X" "1.0"]))).1
      = Opened (Some tbl')
      ∧ unique_triples tbl'.
Proof.
  assert (unique_triples (default [] (Some [Row 1 "A" "X" "1.0"]))) as H
    by apply NoDup_singleton.
  split; [exact H|].
  exact (save_keeps_unique "A" [("X","1.0"); ("Y","2.0"); ("X","1.0")] _ H).
Defined.

(** ** The two programs together *)

(** What [dependencies.py] saves, [list.py] finds: after a save on a
    database file that opens, with or without the table, the load succeeds,
    and the saved service is listed, with the saved version, among the
    dependents of each dependency it was saved with. *)
Theorem saved_dependency_is_listed (service_name : string)
    (dependencies : list (string * string)) (tbl : option (list row))
    (dep ver : string) :
  (dep, ver) ∈ dependencies →
  ∃ rows,
    load_db
      (save_dependencies_to_db service_name dependencies (Opened tbl)).1
    = Returned rows
    ∧ (service_name, dep, ver) ∈ rows
    ∧ (service_name, ver) ∈ main_results rows dep false.
Proof.
  intros Hin.
  exists (triple <$> foldl (λ tbl '(dep, version),
                              insert_or_ignore service_name dep version tbl)
                           (default [] tbl) dependencies).
  split; [reflexivity|].
  match goal with |- ?r ∈ ?l ∧ _ => assert (r ∈ l) as Hrow end.
  { apply insert_each_triples. right. by exists dep, ver. }
  split; [exact Hrow|].
  rewrite main_results_raw.
  apply (list_elem_of_fmap_2' as_dependent _ (service_name, dep, ver));
    [|done].
  by apply list_elem_of_filter.
Qed.

Lemma saved_dependency_is_listed_witness :
  ("X", "1.0") ∈ [("Y", "2.0"); ("X", "1.0")]
  ∧ ∃ rows,
      load_db
        (save_dependencies_to_db "A" [("Y", "2.0"); ("X", "1.0")]
           (Opened None)).1
      = Returned rows
      ∧ ("A", "X", "1.0") ∈ rows
      ∧ ("A", "1.0") ∈ main_results rows "X" false.
Proof.
  assert (("X", "1.0") ∈ [("Y", "2.0"); ("X", "1.0")]) as H
    by (apply elem_of_cons; right; apply elem_of_cons; by left).
  split; [exact H|].
  exact (saved_dependency_is_listed "A" [("Y", "2.0"); ("X", "1.0")]
           None "X" "1.0" H).
Defined.

(** After a save on a database file that opens, [main] of [list.py] ends
    without an exception, for every command line: the save creates the
    table when it is missing. *)
Theorem list_after_save_returns (a : args) (service_name : string)
    (dependencies : list (string * string)) (tbl : option (list row)) :
  (main a (save_dependencies_to_db service_name dependencies
             (Opened tbl)).1).2
  = Returned ().
Proof. unfold save_dependencies_to_db; simpl. apply main_returns. Qed.

(** ** The driver of [dependencies.py] *)

(** When the service name is not found, or is empty, or when no dependency
    is found, the run leaves the database file as it is: no table is
    created and no row is added. *)
Theorem driver_leaves_store (w : DependenciesPyDriver.world) (db : database) :
  given (DependenciesPyDriver.get_current_service w).2 = None
  ∨ (DependenciesPyDriver.get_dependencies w).2 = [] →
  (DependenciesPyDriver.main w db).1 = db.
Proof.
  unfold DependenciesPyDriver.main.
  destruct (DependenciesPyDriver.get_current_service w) as [out1 name].
  destruct (DependenciesPyDriver.get_dependencies w) as [out2 deps].
  cbn [snd]. intros [H|H].
  - by rewrite H.
  - subst deps. by destruct (given name).
Qed.

Lemma driver_leaves_store_witness :
  let w := DependenciesPyDriver.World ([], Some "service-c") ([], []) in
  (given (DependenciesPyDriver.get_current_service w).2 = None
   ∨ (DependenciesPyDriver.get_dependencies w).2 = [])
  ∧ DependenciesPyDriver.main w (Opened None)
    = (Opened None, ["Service Name: service-c"; "No dependencies found."]).
Proof.
  intros w.
  assert (given (DependenciesPyDriver.get_current_service w).2 = None
          ∨ (DependenciesPyDriver.get_dependencies w).2 = []) as H
    by (right; reflexivity).
  split; [exact H|].
  pose proof (driver_leaves_store w (Opened None) H) as E.
  destruct (DependenciesPyDriver.main w (Opened None)) as [db out] eqn:M.
  simpl in E. subst db. vm_compute in M. by injection M as <-.
Defined.

(** When a service name and at least one dependency are found, the run
    saves them and ends by printing the table as it then is; if the
    database file opens, the printed lines hold one line
    [service, dependency, version] for each dependency found. *)
Theorem driver_saves_and_prints (w : DependenciesPyDriver.world)
    (db : database) (service_name : string) :
  given (DependenciesPyDriver.get_current_service w).2 = Some service_name →
  (DependenciesPyDriver.get_dependencies w).2 ≠ [] →
  let dependencies := (DependenciesPyDriver.get_dependencies w).2 in
  let run := DependenciesPyDriver.main w db in
  run.1 = (save_dependencies_to_db service_name dependencies db).1
  ∧ print_db_contents run.1 `suffix_of` run.2
  ∧ ∀ tbl dep ver,
      db = Opened tbl →
      (dep, ver) ∈ dependencies →
      (service_name +:+ ", " +:+ dep +:+ ", " +:+ ver) ∈ run.2.
Proof.
  intros Hname Hne dependencies run.
  destruct w as [[out1 name] [out2 deps]].
  cbn [DependenciesPyDriver.get_current_service
       DependenciesPyDriver.get_dependencies snd] in *.
  subst dependencies.
  destruct deps as [|d0 deps0] eqn:E; [done|]. rewrite <- E in *.
  assert (run = ((save_dependencies_to_db service_name deps db).1,
                 out1 ++ ["Service Name: " +:+ service_name] ++ out2
                   ++ ("Found dependencies:"
                         :: ((λ '(dep, ver), "  " +:+ dep +:+ " - " +:+ ver)
                               <$> deps))
                   ++ (save_dependencies_to_db service_name deps db).2
                   ++ [DependenciesPyDriver.newline
                         +:+ "Saved records in SQLite (servicename, dependency, version):"]
                   ++ print_db_contents
                        (save_dependencies_to_db service_name deps db).1))
    as Hrun.
  { unfold run, DependenciesPyDriver.main.
    cbn [DependenciesPyDriver.get_current_service
         DependenciesPyDriver.get_dependencies].
    rewrite Hname, E.
    destruct (save_dependencies_to_db service_name (d0 :: deps0) db);
      simpl. by rewrite <- !app_assoc. }
  assert (print_db_contents run.1 `suffix_of` run.2) as Hsuf.
  { rewrite Hrun; cbn [fst snd]. rewrite !app_assoc. by apply suffix_app_r. }
  split; [by rewrite Hrun|]. split; [exact Hsuf|].
  intros tbl dep ver -> Hin.
  destruct Hsuf as [k ->]. apply elem_of_app. right.
  rewrite Hrun; cbn [fst]. unfold save_dependencies_to_db; simpl.
  unfold print_db_contents; simpl. do 2 (apply elem_of_cons; right).
  apply (list_elem_of_fmap_2'
           (λ '(r0, r1, r2), r0 +:+ ", " +:+ r1 +:+ ", " +:+ r2) _
           (service_name, dep, ver)); [|done].
  apply insert_each_triples. right. by exists dep, ver.
Qed.

Lemma driver_saves_and_prints_witness :
  let w := DependenciesPyDriver.World
             ([], Some "service-c") ([], [("service-a", "1.0.0")]) in
  (given (DependenciesPyDriver.get_current_service w).2 = Some "service-c"
   ∧ (DependenciesPyDriver.get_dependencies w).2 ≠ [])
  ∧ "service-c, service-a, 1.0.0"
      ∈ (DependenciesPyDriver.main w (Opened None)).2.
Proof.
  intros w.
  assert (given (DependenciesPyDriver.get_current_service w).2
          = Some "service-c") as H1 by reflexivity.
  assert ((DependenciesPyDriver.get_dependencies w).2 ≠ []) as H2
    by discriminate.
  split; [done|].
  destruct (driver_saves_and_prints w (Opened None) "service-c" H1 H2)
    as (_ & _ & H).
  apply (H None "service-a" "1.0.0" eq_refl).
  apply elem_of_cons; by left.
Defined.

(** ** When the reduction changes nothing *)

Lemma filter_all {A : Type} (P : A → Prop) `{∀ x, Decision (P x)}
    (l : list A) :
  filter P l = l ↔ ∀ x, x ∈ l → P x.
Proof.
  split.
  - intros E x Hx. rewrite <- E in Hx.
    by apply list_elem_of_filter in Hx as [? _].
  - induction l as [|a l IH]; intros Hall; [done|].
    rewrite filter_cons_True by (apply Hall, elem_of_cons; by left).
    f_equal. apply IH. intros x Hx. apply Hall, elem_of_cons. by right.
Qed.

(** Immediate mode returns the whole Raw-mode list exactly when no fact
    records a dependent of the target as depending on a dependent of the
    target. *)
Theorem immediate_is_raw_iff (rows : list fact) (service : string) :
  main_results rows service true = main_results rows service false
  ↔ ∀ d ver e ver' ver'',
      (d, ver) ∈ main_results rows service false →
      (e, ver') ∈ main_results rows service false →
      (d, e, ver'') ∉ rows.
Proof.
  rewrite main_results_immediate, filter_all. split.
  - intros Hall d ver e ver' ver'' Hd He Hf.
    specialize (Hall (d, ver) Hd). unfold immediate in Hall; cbn [fst] in Hall.
    assert (e ∈ forward_set (build_direct_map rows) d
                ∩ names_of (main_results rows service false)) as Hin.
    { apply elem_of_intersection. split.
      - apply elem_of_forward_set. by exists ver''.
      - apply elem_of_names_of. by exists ver'. }
    rewrite Hall in Hin. by apply not_elem_of_empty in Hin.
  - intros Hno [d ver] Hd. unfold immediate; cbn [fst].
    apply set_eq. intros e. split; [|intros Habs; by apply not_elem_of_empty in Habs].
    intros Hin. apply elem_of_intersection in Hin as [Hf Hn].
    apply elem_of_forward_set in Hf as [ver'' Hf].
    apply elem_of_names_of in Hn as [ver' He].
    by destruct (Hno d ver e ver' ver'' Hd He).
Qed.
